(** * The chat gateway of [Backend/src/server.js]

    A shallow embedding of the request handler of the gateway and of the
    helper [getChatResponse] it calls: the values the JavaScript code
    manipulates, the conversions the language applies to them, the two
    resource files, the remote completion call, and the HTTP reply. *)

From Stdlib Require Import String Ascii List Bool.
Import ListNotations.
Open Scope string_scope.

(** ** Values

    Every value the handler touches is data: it comes out of [JSON.parse]
    (the two resource files, the request body), out of the completion
    client (a response or an error object) or is built from literals.
    There are no functions among them.

    The program never computes with a number; it only tests one for
    truthiness and renders it in a string. A number is kept as the text
    [Number::toString] gives for it, which identifies it up to the sign of
    zero.

    An object is the list of its own properties; when a key occurs more
    than once the first binding is the live one. *)

#[local] Unset Elimination Schemes.

Inductive value : Type :=
| VUndef
| VNull
| VBool (b : bool)
| VNum (rendering : string)
| VStr (s : string)
| VArr (items : list value)
| VObj (props : list (string * value)).

#[local] Set Elimination Schemes.

(** The property names the program reads with [.] or [?.]. *)
Module Name.
Inductive t : Type :=
| info | prompt | role | output_text | output | content | text | error | message.
End Name.

Definition name_text (k : Name.t) : string :=
  match k with
  | Name.info => "info"
  | Name.prompt => "prompt"
  | Name.role => "role"
  | Name.output_text => "output_text"
  | Name.output => "output"
  | Name.content => "content"
  | Name.text => "text"
  | Name.error => "error"
  | Name.message => "message"
  end.

Definition LF : string := String (ascii_of_nat 10) "".

(** ** Completions: a JavaScript evaluation ends normally or throws *)

Inductive completion (A : Type) : Type :=
| Normal (a : A)
| Throw (e : value).

Arguments Normal {A} a.
Arguments Throw {A} e.

Definition bind {A B} (c : completion A) (k : A -> completion B) : completion B :=
  match c with
  | Normal a => k a
  | Throw e => Throw e
  end.

(** [try { c } catch (e) { h e }] *)
Definition try_catch {A} (c : completion A) (h : value -> completion A) : completion A :=
  match c with
  | Normal a => Normal a
  | Throw e => h e
  end.

Declare Scope js_scope.
Delimit Scope js_scope with js.
Notation "x <- c ;; k" := (bind c (fun x => k))
  (at level 61, c at next level, right associativity) : js_scope.
Open Scope js_scope.

Fixpoint mapM {A B} (f : A -> completion B) (l : list A) : completion (list B) :=
  match l with
  | [] => Normal []
  | x :: tl => y <- f x ;; ys <- mapM f tl ;; Normal (y :: ys)
  end.

(** What the program can observe of an error object the engine throws:
    its [message]. The wording is V8's; nothing below depends on it. *)
Definition TypeError (msg : string) : value := VObj [("message", VStr msg)].

(** ** Language operations *)

Fixpoint lookup (k : string) (props : list (string * value)) : option value :=
  match props with
  | [] => None
  | (k', v) :: tl => if String.eqb k k' then Some v else lookup k tl
  end.

Definition nullish (v : value) : bool :=
  match v with
  | VUndef | VNull => true
  | _ => false
  end.

(** [v.k] for [k] one of the names above. None of them is a property of
    a boolean, a number, a string or an array, and none is inherited by a
    plain object, so only an own property of an object answers with
    something else than [undefined]. *)
Definition get (v : value) (k : Name.t) : completion value :=
  match v with
  | VUndef =>
      Throw (TypeError ("Cannot read properties of undefined (reading '" ++ name_text k ++ "')"))
  | VNull =>
      Throw (TypeError ("Cannot read properties of null (reading '" ++ name_text k ++ "')"))
  | VObj props =>
      match lookup (name_text k) props with
      | Some x => Normal x
      | None => Normal VUndef
      end
  | _ => Normal VUndef
  end.

(** [v?.k] *)
Definition get_opt (v : value) (k : Name.t) : completion value :=
  if nullish v then Normal VUndef else get v k.

Definition ToBoolean (v : value) : bool :=
  match v with
  | VUndef | VNull => false
  | VBool b => b
  | VNum r => negb (String.eqb r "0" || String.eqb r "NaN")
  | VStr s => negb (String.eqb s "")
  | VArr _ | VObj _ => true
  end.

(** [a || b] and [a ?? b], with [b] evaluated only when needed. *)
Definition or_else (a : value) (b : completion value) : completion value :=
  if ToBoolean a then Normal a else b.

Definition coalesce (a : value) (b : completion value) : completion value :=
  if nullish a then b else Normal a.

(** [ToString]. An array goes through [Array.prototype.join] with a comma.
    A plain object answers ["[object Object]"] through the inherited
    [toString], unless it has an own property of that name: that one is
    data, not callable, [valueOf] gives the object back, and the
    conversion throws. *)
Fixpoint ToString (v : value) : completion string :=
  match v with
  | VUndef => Normal "undefined"
  | VNull => Normal "null"
  | VBool true => Normal "true"
  | VBool false => Normal "false"
  | VNum r => Normal r
  | VStr s => Normal s
  | VArr items =>
      parts <- (fix each (l : list value) : completion (list string) :=
                  match l with
                  | [] => Normal []
                  | x :: tl =>
                      s <- (if nullish x then Normal "" else ToString x) ;;
                      ss <- each tl ;;
                      Normal (s :: ss)
                  end) items ;;
      Normal (String.concat "," parts)
  | VObj props =>
      match lookup "toString" props with
      | Some _ => Throw (TypeError "Cannot convert object to primitive value")
      | None => Normal "[object Object]"
      end
  end.

(** One element of [Array.prototype.join]: [undefined] and [null] give the
    empty string. *)
Definition join_element (x : value) : completion string :=
  if nullish x then Normal "" else ToString x.

(** [items.join(sep)] *)
Definition Array_join (sep : string) (items : list value) : completion string :=
  parts <- mapM join_element items ;;
  Normal (String.concat sep parts).

(** [arr.map(f)] where [arr] is written [callee] in the source. Anything
    but an array has no callable [map]. *)
Definition Array_map (callee : string) (f : value -> completion value) (arr : value)
  : completion (list value) :=
  match arr with
  | VArr items => mapM f items
  | VUndef => Throw (TypeError "Cannot read properties of undefined (reading 'map')")
  | VNull => Throw (TypeError "Cannot read properties of null (reading 'map')")
  | _ => Throw (TypeError (callee ++ ".map is not a function"))
  end.

(** [a + b] with a string on the left. *)
Definition append_value (a : string) (b : value) : completion string :=
  s <- ToString b ;; Normal (a ++ s).

(** ** The resource files

    [JSON.parse(await fs.readFile(path, 'utf-8'))]: the read fails, the
    parse fails, or a value comes out. *)
Inductive resource : Type :=
| Unreadable
| Unparsable
| Parsed (v : value).

Definition load (f : resource) : completion value :=
  match f with
  | Unreadable => Throw (VObj [("message", VStr "ENOENT: no such file or directory")])
  | Unparsable => Throw (VObj [("message", VStr "Unexpected token in JSON")])
  | Parsed v => Normal v
  end.

(** What [JSON.parse] can return. *)
Fixpoint is_json (v : value) : bool :=
  match v with
  | VUndef => false
  | VArr items => forallb is_json items
  | VObj props => forallb (fun kv => is_json (snd kv)) props
  | _ => true
  end.

(** ** The prompt assembler: lines 74 to 96 of [getChatResponse] *)

Definition load_contextArr (context_json : resource) : value :=
  match load context_json with
  | Normal v => v
  | Throw _ => VArr []
  end.

Definition load_guardrailPrompt (guardrail_json : resource) : value :=
  match (g <- load guardrail_json ;; p <- get g Name.prompt ;; or_else p (Normal (VStr ""))) with
  | Normal v => v
  | Throw _ => VStr ""
  end.

Definition separator : string := LF ++ "---" ++ LF.

Definition fullPrompt (context_json guardrail_json : resource) (prompt : value)
  : completion string :=
  let contextArr := load_contextArr context_json in
  let guardrailPrompt := load_guardrailPrompt guardrail_json in
  infos <- Array_map "contextArr" (fun c => get c Name.info) contextArr ;;
  contextString <- Array_join LF infos ;;
  Array_join separator
    (filter ToBoolean [guardrailPrompt; VStr contextString; prompt]).

(** ** The completion invoker: lines 98 to 112 of [getChatResponse] *)

Record Preset : Type := {
  model : string;
  temperature : value;
  max_output_tokens : value
}.

Definition MODEL_PRESETS : list (string * Preset) :=
  [ ("gpt-5",
     {| model := "gpt-5"; temperature := VNum "0.7"; max_output_tokens := VNum "1024" |});
    ("gpt-5-mini",
     {| model := "gpt-5-mini"; temperature := VNum "0.5"; max_output_tokens := VNum "768" |});
    ("gpt-5-chat-latest",
     {| model := "gpt-5-chat-latest"; temperature := VNum "0.7";
        max_output_tokens := VNum "1024" |}) ].

(** [MODEL_PRESETS[key]]; [None] stands for [undefined]. *)
Fixpoint preset_of (key : string) (table : list (string * Preset)) : option Preset :=
  match table with
  | [] => None
  | (k, p) :: tl => if String.eqb key k then Some p else preset_of key tl
  end.

(** The argument of [client.responses.create]. *)
Record CreateParams : Type := {
  req_model : string;
  req_temperature : value;
  req_max_output_tokens : value;
  req_input : value
}.

(** The promise [client.responses.create] returns, once settled. *)
Inductive settled : Type :=
| Resolved (r : value)
| Rejected (e : value).

Definition await (p : settled) : completion value :=
  match p with
  | Resolved r => Normal r
  | Rejected e => Throw e
  end.

(** What a request runs against: the two files under [data/] and the
    completion service. *)
Record World : Type := {
  context_json : resource;
  guardrail_json : resource;
  responses_create : CreateParams -> settled
}.

(** [o.content?.map(c => c.text).join('')]: a nullish [content] ends the
    whole chain with [undefined]. *)
Definition item_text (o : value) : completion value :=
  cs <- get o Name.content ;;
  if nullish cs then Normal VUndef
  else
    texts <- Array_map "o.content?" (fun c => get c Name.text) cs ;;
    s <- Array_join "" texts ;;
    Normal (VStr s).

(** Line 109. *)
Definition extract_text (r : value) : completion value :=
  direct <- get r Name.output_text ;;
  coalesce direct
    (out <- get r Name.output ;;
     joined <- (if nullish out then Normal VUndef
                else
                  parts <- Array_map "r.output?" item_text out ;;
                  s <- Array_join LF parts ;;
                  Normal (VStr s)) ;;
     or_else joined (Normal (VStr ""))).

(** [e?.error?.message || e.message || 'Unknown error'] *)
Definition error_message (e : value) : completion value :=
  err <- get_opt e Name.error ;;
  m <- get_opt err Name.message ;;
  or_else m
    (m' <- get e Name.message ;;
     or_else m' (Normal (VStr "Unknown error"))).

(** Line 111, the body of the [catch]. *)
Definition placeholder (e : value) : completion value :=
  m <- error_message e ;;
  s <- append_value "[OpenAI error: " m ;;
  Normal (VStr (s ++ "]")).

(** [{ model: preset.model, temperature: preset.temperature,
      max_output_tokens: preset.max_output_tokens, input }] *)
Definition create_params (preset : option Preset) (input : value) : completion CreateParams :=
  match preset with
  | Some p =>
      Normal {| req_model := p.(model);
                req_temperature := p.(temperature);
                req_max_output_tokens := p.(max_output_tokens);
                req_input := input |}
  | None => Throw (TypeError "Cannot read properties of undefined (reading 'model')")
  end.

(** A run of [getChatResponse]: the calls it made to the completion
    service, and how it ended. *)
Record run : Type := {
  calls : list CreateParams;
  result : completion value
}.

Definition message_of (role : value) (fullPrompt : string) : value :=
  VObj [("role", role);
        ("content", VArr [VObj [("type", VStr "text"); ("text", VStr fullPrompt)]])].

Definition getChatResponse (w : World) (role prompt : value) : run :=
  match fullPrompt w.(context_json) w.(guardrail_json) prompt with
  | Throw e => {| calls := []; result := Throw e |}
  | Normal full =>
      let model := "gpt-5" in
      let preset := preset_of model MODEL_PRESETS in
      let input := VArr [message_of role full] in
      match create_params preset input with
      | Throw e => {| calls := []; result := placeholder e |}
      | Normal q =>
          {| calls := [q];
             result := try_catch (r <- await (w.(responses_create) q) ;; extract_text r)
                                 placeholder |}
      end
  end.

(** ** The HTTP handler: lines 126 to 136 *)

Definition quoted (label : string) : string :=
  String (ascii_of_nat 34) label ++ String (ascii_of_nat 34) "".

(** Modelled from the spec: the validator behind [bodySchema] is the Joi
    library, which is not part of the sources. Section 4.3 gives its
    contract: [role] and [prompt] are both required non-empty strings, and
    a failure carries a message describing all violated constraints. The
    three wordings are the ones Joi uses for [string().required()]. *)
Definition string_required (label : string) (field : option value) : option string :=
  match field with
  | None | Some VUndef => Some (quoted label ++ " is required")
  | Some (VStr s) =>
      if String.eqb s "" then Some (quoted label ++ " is not allowed to be empty") else None
  | Some _ => Some (quoted label ++ " must be a string")
  end.

Definition collect (errors : list (option string)) : list string :=
  flat_map (fun e => match e with Some m => [m] | None => [] end) errors.

Definition keep (key : string) (body : list (string * value)) : list (string * value) :=
  match lookup key body with
  | Some v => [(key, v)]
  | None => []
  end.

(** Modelled from the spec: [bodySchema.validate(req.body,
    { abortEarly: false, stripUnknown: true })] on a body that is an
    object. Both keys are checked, the messages are joined into one, and
    the value handed back holds the two known keys only. *)
Definition bodySchema_validate (body : list (string * value)) : value * option string :=
  let errors := collect [string_required "role" (lookup "role" body);
                         string_required "prompt" (lookup "prompt" body)] in
  (VObj (keep "role" body ++ keep "prompt" body),
   match errors with
   | [] => None
   | _ => Some (String.concat ". " errors)
   end).

Record reply : Type := {
  status : nat;
  body : value
}.

(** What one request did: the upstream calls, and the reply sent, unless
    the handler threw before sending one. *)
Record handled : Type := {
  upstream : list CreateParams;
  response : completion reply
}.

Definition bad_request (msg : string) : reply :=
  {| status := 400;
     body := VObj [("ok", VBool false);
                   ("error", VObj [("type", VStr "BadRequest"); ("message", VStr msg)])] |}.

Definition success (output : value) : reply :=
  {| status := 200;
     body := VObj [("ok", VBool true); ("model", VStr "gpt-5"); ("output_text", output);
                   ("usage", VNull); ("raw", VNull)] |}.

Definition post_v1_chat (w : World) (req_body : list (string * value)) : handled :=
  let (value, error) := bodySchema_validate req_body in
  match error with
  | Some msg => {| upstream := []; response := Normal (bad_request msg) |}
  | None =>
      match (r <- get value Name.role ;; p <- get value Name.prompt ;; Normal (r, p)) with
      | Throw e => {| upstream := []; response := Throw e |}
      | Normal (r, p) =>
          let chat := getChatResponse w r p in
          {| upstream := chat.(calls);
             response := output_text <- chat.(result) ;; Normal (success output_text) |}
      end
  end.

(** ** Shapes of the inputs *)

Definition nonempty (s : string) : bool := negb (String.eqb s "").

(** [ToString] inside a [join] does not throw on [v]. *)
Definition convertible (v : value) : bool :=
  match join_element v with
  | Normal _ => true
  | Throw _ => false
  end.

(** A context entry the assembler can use: not [null], with an [info]
    that converts to a string. *)
Definition entry_usable (c : value) : bool :=
  match get c Name.info with
  | Normal v => convertible v
  | Throw _ => false
  end.

(** The context file failed to load, or holds an array of usable entries. *)
Definition context_usable (f : resource) : bool :=
  match f with
  | Parsed (VArr entries) => forallb entry_usable entries
  | Parsed _ => false
  | Unreadable | Unparsable => true
  end.

(** The guardrail file failed to load, or its [prompt] is falsy, or it
    converts to a string. *)
Definition guardrail_usable (f : resource) : bool :=
  match f with
  | Parsed g =>
      match get g Name.prompt with
      | Normal p => negb (ToBoolean p) || convertible p
      | Throw _ => true
      end
  | Unreadable | Unparsable => true
  end.

(** The guardrail file parsed, and the [prompt] of its value is absent,
    [null], empty or otherwise falsy. *)
Definition prompt_falsy (g : value) : bool :=
  match get g Name.prompt with
  | Normal p => negb (ToBoolean p)
  | Throw _ => true
  end.

(** ** Outcomes of the assembly *)

Definition completes {A} (c : completion A) : bool :=
  match c with
  | Normal _ => true
  | Throw _ => false
  end.

(** The members of the join when the guardrail contributes nothing. *)
Definition context_and_prompt (ctx : resource) (prompt : value) : completion string :=
  infos <- Array_map "contextArr" (fun c => get c Name.info) (load_contextArr ctx) ;;
  contextString <- Array_join LF infos ;;
  Array_join separator (filter ToBoolean [VStr contextString; prompt]).

(** The context file is missing, unreadable, unparsable, or holds the
    empty sequence. *)
Definition context_absent (f : resource) : bool :=
  match f with
  | Parsed (VArr []) => true
  | Parsed _ => false
  | Unreadable | Unparsable => true
  end.

(** The guardrail file is missing, unreadable, unparsable, or holds no
    truthy [prompt]. *)
Definition guardrail_absent (f : resource) : bool :=
  match f with
  | Parsed g => prompt_falsy g
  | Unreadable | Unparsable => true
  end.

(** The [info] texts the assembler reads from the context resource: those
    of the entries, or none when the file fails to load. *)
Inductive context_infos : resource -> list string -> Prop :=
| infos_parsed (entries : list value) (infos : list string) :
    Forall2 (fun c i => get c Name.info = Normal (VStr i)) entries infos ->
    context_infos (Parsed (VArr entries)) infos
| infos_unreadable : context_infos Unreadable []
| infos_unparsable : context_infos Unparsable [].

(** The guardrail directive the assembler reads from the guardrail
    resource: the [prompt] string, or the empty string when there is no
    truthy [prompt] or the file fails to load. *)
Inductive guardrail_directive : resource -> string -> Prop :=
| directive_parsed (gfile : value) (g : string) :
    get gfile Name.prompt = Normal (VStr g) -> guardrail_directive (Parsed gfile) g
| directive_falsy (gfile : value) :
    prompt_falsy gfile = true -> guardrail_directive (Parsed gfile) ""
| directive_unreadable : guardrail_directive Unreadable ""
| directive_unparsable : guardrail_directive Unparsable "".

(** ** The text of a response *)

(** The text a content fragment carries: its [text], or nothing when it
    has none. *)
Inductive fragment_reads : value -> string -> Prop :=
| text_present (c : value) (t : string) :
    get c Name.text = Normal (VStr t) -> fragment_reads c t
| text_absent (c v : value) :
    get c Name.text = Normal v -> nullish v = true -> fragment_reads c "".

(** The text of an output item: its fragments' texts joined with no
    separator, or nothing when it has no [content]. *)
Inductive item_reads : value -> string -> Prop :=
| content_present (o : value) (fragments : list value) (ts : list string) :
    get o Name.content = Normal (VArr fragments) ->
    Forall2 fragment_reads fragments ts ->
    item_reads o (String.concat "" ts)
| content_absent (o v : value) :
    get o Name.content = Normal v -> nullish v = true -> item_reads o "".

(** ** Induction on values *)

Section value_induction.

Variable P : value -> Prop.
Hypothesis Hundef : P VUndef.
Hypothesis Hnull : P VNull.
Hypothesis Hbool : forall b, P (VBool b).
Hypothesis Hnum : forall r, P (VNum r).
Hypothesis Hstr : forall s, P (VStr s).
Hypothesis Harr : forall items, Forall P items -> P (VArr items).
Hypothesis Hobj : forall props, Forall (fun kv => P (snd kv)) props -> P (VObj props).

Fixpoint value_ind' (v : value) : P v :=
  match v with
  | VUndef => Hundef
  | VNull => Hnull
  | VBool b => Hbool b
  | VNum r => Hnum r
  | VStr s => Hstr s
  | VArr items =>
      Harr items
        ((fix all (l : list value) : Forall P l :=
            match l with
            | [] => Forall_nil P
            | x :: tl => Forall_cons x (value_ind' x) (all tl)
            end) items)
  | VObj props =>
      Hobj props
        ((fix all (l : list (string * value)) : Forall (fun kv => P (snd kv)) l :=
            match l with
            | [] => Forall_nil _
            | (k, x) :: tl => Forall_cons (k, x) (value_ind' x) (all tl)
            end) props)
  end.

End value_induction.

Definition is_TypeError (e : value) : Prop := exists msg, e = TypeError msg.

(** ** Requests that pass validation *)

(** A field that is a non-empty string. *)
Definition valid_field (field : option value) : bool :=
  match field with
  | Some (VStr s) => nonempty s
  | _ => false
  end.

Definition valid_body (body : list (string * value)) : bool :=
  valid_field (lookup "role" body) && valid_field (lookup "prompt" body).

(** The request the invoker sends for a role and a composite input. *)
Definition gpt5_request (role : value) (full : string) : CreateParams :=
  {| req_model := "gpt-5";
     req_temperature := VNum "0.7";
     req_max_output_tokens := VNum "1024";
     req_input := VArr [message_of role full] |}.

(** ** Error objects and settled calls *)

(** [v?.k] as a total read: it never throws. *)
Definition field (v : value) (k : Name.t) : value :=
  match get_opt v k with
  | Normal x => x
  | Throw _ => VUndef
  end.

(** The message of an error object [e]: [e.error.message] if truthy, else
    [e.message] if truthy, else the fixed text. *)
Definition truthy_message (e : value) : value :=
  let m := field (field e Name.error) Name.message in
  if ToBoolean m then m
  else
    let m' := field e Name.message in
    if ToBoolean m' then m' else VStr "Unknown error".

(** The message of C2 as stated: [e.error.message] if present, that is
    neither [null] nor [undefined], else [e.message], else the fixed
    text. *)
Definition present_message (e : value) : value :=
  let m := field (field e Name.error) Name.message in
  if negb (nullish m) then m
  else
    let m' := field e Name.message in
    if negb (nullish m') then m' else VStr "Unknown error".

Definition is_string (v : value) : bool :=
  match v with
  | VStr _ => true
  | _ => false
  end.

(** What the completion client hands back, as its types promise: a
    response whose [output_text], when it has one, is a string; or an error
    object whose message converts to a string. *)
Definition settled_typed (p : settled) : bool :=
  match p with
  | Resolved r =>
      match get r Name.output_text with
      | Normal direct => nullish direct || is_string direct
      | Throw _ => true
      end
  | Rejected e => negb (nullish e) && completes (ToString (truthy_message e))
  end.

(** [needle] occurs in [haystack]. *)
Definition mentions (needle haystack : string) : Prop :=
  exists before after, haystack = before ++ needle ++ after.

(** ** What a request to the service carries *)

(** The role and the text of the single message a request carries. *)
Definition sent_role (q : CreateParams) : option value :=
  match req_input q with
  | VArr [VObj m] => lookup "role" m
  | _ => None
  end.

Definition sent_text (q : CreateParams) : option value :=
  match req_input q with
  | VArr [VObj m] =>
      match lookup "content" m with
      | Some (VArr [VObj part]) => lookup "text" part
      | _ => None
      end
  | _ => None
  end.

(** The same request with another role in its message. *)
Definition set_role (role : value) (q : CreateParams) : CreateParams :=
  {| req_model := req_model q;
     req_temperature := req_temperature q;
     req_max_output_tokens := req_max_output_tokens q;
     req_input := match req_input q with
                  | VArr [VObj (("role", _) :: rest)] => VArr [VObj (("role", role) :: rest)]
                  | other => other
                  end |}.

(** ** Sample worlds *)

Definition connection_error : value :=
  VObj [("status", VUndef); ("error", VUndef); ("message", VStr "Connection error.")].

Definition offline : World :=
  {| context_json := Unreadable;
     guardrail_json := Unreadable;
     responses_create := fun _ => Rejected connection_error |}.

(** What the client throws for a 400 reply whose error body carries an
    empty message: [error] is that body, [message] the status followed by
    the body serialised. *)
Definition empty_api_message : value :=
  VObj [("status", VNum "400");
        ("error", VObj [("message", VStr "")]);
        ("message", VStr ("400 {" ++ quoted "message" ++ ":" ++ quoted "" ++ "}"))].

Definition greeting : value :=
  VObj [("id", VStr "resp_1"); ("output_text", VStr "Hello!"); ("output", VArr [])].

Definition online : World :=
  {| context_json := Parsed (VArr [VObj [("info", VStr "A")]; VObj [("info", VStr "B")]]);
     guardrail_json := Parsed (VObj [("prompt", VStr "G")]);
     responses_create := fun _ => Resolved greeting |}.

(** A response whose [output] is an object, not an array. *)
Definition malformed : value := VObj [("output", VObj [("text", VStr "Hi")])].

(** ** The CORS option: line 117 *)

(** [s.split(sep)] for a separator of one character. *)
Fixpoint split (sep : ascii) (s : string) : list string :=
  match s with
  | EmptyString => [""]
  | String c rest =>
      if Ascii.eqb c sep then "" :: split sep rest
      else
        match split sep rest with
        | piece :: pieces => String c piece :: pieces
        | [] => [String c ""]
        end
  end.

(** The [origin] handed to [cors]: [true], or a list of origins. *)
Inductive cors_origin : Type :=
| OriginTrue
| OriginList (origins : list string).

(** [env.CORS_ORIGIN === '*' ? true : env.CORS_ORIGIN.split(',')] *)
Definition cors_origin_option (CORS_ORIGIN : string) : cors_origin :=
  if String.eqb CORS_ORIGIN "*" then OriginTrue
  else OriginList (split ","%char CORS_ORIGIN).

Fixpoint count_char (c : ascii) (s : string) : nat :=
  match s with
  | EmptyString => 0
  | String c' rest => (if Ascii.eqb c' c then 1 else 0) + count_char c rest
  end.

(** ** Further shapes of the inputs *)

(** The text a context entry contributes: its [info], or nothing when it
    has none. *)
Inductive entry_reads : value -> string -> Prop :=
| info_present (c : value) (i : string) :
    get c Name.info = Normal (VStr i) -> entry_reads c i
| info_absent (c v : value) :
    get c Name.info = Normal v -> nullish v = true -> entry_reads c "".

(** A settled call after which [getChatResponse] returns: any response,
    or a rejection with a value that is neither [null] nor [undefined] and
    whose message converts to a string. *)
Definition settled_handled (p : settled) : bool :=
  match p with
  | Resolved _ => true
  | Rejected e => negb (nullish e) && completes (ToString (truthy_message e))
  end.

Definition is_array (v : value) : bool :=
  match v with
  | VArr _ => true
  | _ => false
  end.

(** * Properties *)

(** ** Joining strings *)

Lemma mapM_get_strings (k : Name.t) (entries : list value) (texts : list string) :
  Forall2 (fun c t => get c k = Normal (VStr t)) entries texts ->
  mapM (fun c => get c k) entries = Normal (map VStr texts).
Proof.
  induction 1 as [| c t entries texts Hc _ IH]; simpl.
  - reflexivity.
  - rewrite Hc. simpl. rewrite IH. reflexivity.
Qed.

Lemma mapM_join_strings (texts : list string) :
  mapM join_element (map VStr texts) = Normal texts.
Proof.
  induction texts as [| t texts IH]; simpl.
  - reflexivity.
  - rewrite IH. reflexivity.
Qed.

Lemma Array_join_strings (sep : string) (texts : list string) :
  Array_join sep (map VStr texts) = Normal (String.concat sep texts).
Proof.
  unfold Array_join. rewrite mapM_join_strings. reflexivity.
Qed.

Lemma filter_ToBoolean_strings (texts : list string) :
  filter ToBoolean (map VStr texts) = map VStr (filter nonempty texts).
Proof.
  induction texts as [| t texts IH]; simpl.
  - reflexivity.
  - rewrite IH. unfold nonempty. destruct (String.eqb t ""); reflexivity.
Qed.

Lemma or_else_empty_string (s : string) :
  or_else (VStr s) (Normal (VStr "")) = Normal (VStr s).
Proof.
  unfold or_else. simpl. destruct (String.eqb s "") eqn:E; simpl.
  - apply String.eqb_eq in E. subst. reflexivity.
  - reflexivity.
Qed.

Lemma load_guardrailPrompt_string (g : value) (s : string) :
  get g Name.prompt = Normal (VStr s) ->
  load_guardrailPrompt (Parsed g) = VStr s.
Proof.
  intros H. unfold load_guardrailPrompt. simpl. rewrite H. simpl.
  rewrite or_else_empty_string. reflexivity.
Qed.

Lemma load_guardrailPrompt_falsy (g : value) :
  prompt_falsy g = true -> load_guardrailPrompt (Parsed g) = VStr "".
Proof.
  unfold prompt_falsy, load_guardrailPrompt. simpl.
  destruct (get g Name.prompt) as [p | e]; simpl.
  - intros H. unfold or_else. apply negb_true_iff in H. rewrite H. reflexivity.
  - reflexivity.
Qed.

Lemma concat_singleton_or_nil (sep p : string) :
  String.concat sep (filter nonempty [p]) = p.
Proof.
  simpl. unfold nonempty. destruct (String.eqb p "") eqn:E; simpl.
  - apply String.eqb_eq in E. subst. reflexivity.
  - reflexivity.
Qed.

(** The assembly once the two loads are done, for members that are
    strings. *)
Lemma fullPrompt_of_strings (ctx guard : resource) (infos : list string) (g p : string) :
  Array_map "contextArr" (fun c => get c Name.info) (load_contextArr ctx)
    = Normal (map VStr infos) ->
  load_guardrailPrompt guard = VStr g ->
  fullPrompt ctx guard (VStr p)
    = Normal (String.concat separator (filter nonempty [g; String.concat LF infos; p])).
Proof.
  intros Hc Hg. unfold fullPrompt. rewrite Hc, Hg. cbn [bind].
  rewrite Array_join_strings. cbn [bind].
  change [VStr g; VStr (String.concat LF infos); VStr p]
    with (map VStr [g; String.concat LF infos; p]).
  rewrite filter_ToBoolean_strings. apply Array_join_strings.
Qed.

(** ** The prompt assembler *)

(** C1. With the context entries' [info] texts [infos] and the guardrail
    directive [g] read from the two resources, and the prompt [p], the
    composite input is the join with the separator (newline, three dashes,
    newline) of the non-empty members among [g], the context block (the
    [infos] joined with a newline) and [p], in this order. In particular
    entries A and B, guardrail G and prompt P give G, separator, A,
    newline, B, separator, P. *)
Theorem fullPrompt_joins_members :
  (forall (ctx guard : resource) (infos : list string) (g p : string),
      context_infos ctx infos ->
      guardrail_directive guard g ->
      fullPrompt ctx guard (VStr p)
      = Normal (String.concat separator
                  (filter nonempty [g; String.concat LF infos; p])))
  /\ fullPrompt (Parsed (VArr [VObj [("info", VStr "A")]; VObj [("info", VStr "B")]]))
                (Parsed (VObj [("prompt", VStr "G")])) (VStr "P")
     = Normal ("G" ++ LF ++ "---" ++ LF ++ "A" ++ LF ++ "B" ++ LF ++ "---" ++ LF ++ "P").
Proof.
  split.
  - intros ctx guard infos g p Hctx Hguard.
    apply fullPrompt_of_strings.
    + destruct Hctx as [entries infos Hentries | |]; try reflexivity.
      simpl. apply mapM_get_strings, Hentries.
    + destruct Hguard as [gfile g Hg | gfile Hg | |]; try reflexivity.
      * apply load_guardrailPrompt_string, Hg.
      * apply load_guardrailPrompt_falsy, Hg.
  - reflexivity.
Qed.

Lemma fullPrompt_joins_members_witness :
  fullPrompt
    (Parsed (VArr [VObj [("id", VNum "1"); ("info", VStr "A")]; VObj [("info", VStr "")]]))
    (Parsed (VObj [("prompt", VStr ""); ("version", VNum "2")])) (VStr "P")
  = Normal ("A" ++ LF ++ LF ++ "---" ++ LF ++ "P").
Proof.
  apply (proj1 fullPrompt_joins_members
           (Parsed (VArr [VObj [("id", VNum "1"); ("info", VStr "A")];
                          VObj [("info", VStr "")]]))
           (Parsed (VObj [("prompt", VStr ""); ("version", VNum "2")]))
           ["A"; ""] "" "P").
  - apply infos_parsed. repeat constructor.
  - apply directive_parsed. reflexivity.
Defined.

(** ** When the assembly completes *)

Lemma completes_Normal {A} (c : completion A) :
  completes c = true -> exists a, c = Normal a.
Proof.
  destruct c as [a | e]; simpl; intros H; [exists a; reflexivity | discriminate].
Qed.

Lemma completes_join (sep : string) (x : value) (l : list value) :
  completes (Array_join sep (x :: l)) = convertible x && completes (Array_join sep l).
Proof.
  unfold Array_join, convertible. simpl.
  destruct (join_element x); simpl; [| reflexivity].
  destruct (mapM join_element l); reflexivity.
Qed.

Lemma completes_join_strings (sep : string) (texts : list string) :
  completes (Array_join sep (map VStr texts)) = true.
Proof.
  rewrite Array_join_strings. reflexivity.
Qed.

Lemma completes_context_block (sep : string) (entries : list value) :
  completes (infos <- mapM (fun c => get c Name.info) entries ;; Array_join sep infos)
  = forallb entry_usable entries.
Proof.
  induction entries as [| c entries IH].
  - reflexivity.
  - cbn [mapM forallb]. unfold entry_usable at 1.
    destruct (get c Name.info) as [y | e]; cbn [bind]; [| reflexivity].
    destruct (mapM (fun c => get c Name.info) entries) as [ys | e]; cbn [bind] in *.
    + rewrite completes_join, IH. reflexivity.
    + rewrite <- IH. simpl. apply eq_sym, andb_false_r.
Qed.

Lemma completes_members (gp : value) (texts : list string) :
  completes (Array_join separator (filter ToBoolean (gp :: map VStr texts)))
  = negb (ToBoolean gp) || convertible gp.
Proof.
  cbn [filter]. rewrite filter_ToBoolean_strings.
  destruct (ToBoolean gp); cbn [negb orb].
  - rewrite completes_join, completes_join_strings. apply andb_true_r.
  - apply completes_join_strings.
Qed.

Lemma guardrail_usable_loaded (f : resource) :
  guardrail_usable f
  = negb (ToBoolean (load_guardrailPrompt f)) || convertible (load_guardrailPrompt f).
Proof.
  destruct f as [| | g]; try reflexivity.
  unfold guardrail_usable, load_guardrailPrompt. cbn [load bind].
  destruct (get g Name.prompt) as [p | e]; cbn [bind]; [| reflexivity].
  unfold or_else. destruct (ToBoolean p) eqn:E.
  - rewrite E. reflexivity.
  - reflexivity.
Qed.

Lemma fullPrompt_completes (ctx guard : resource) (p : string) :
  completes (fullPrompt ctx guard (VStr p)) = context_usable ctx && guardrail_usable guard.
Proof.
  rewrite guardrail_usable_loaded. unfold fullPrompt.
  set (gp := load_guardrailPrompt guard).
  assert (Harr : forall entries,
    completes (infos <- mapM (fun c => get c Name.info) entries ;;
               contextString <- Array_join LF infos ;;
               Array_join separator (filter ToBoolean [gp; VStr contextString; VStr p]))
    = forallb entry_usable entries && (negb (ToBoolean gp) || convertible gp)).
  { intros entries. rewrite <- completes_context_block with (sep := LF).
    destruct (mapM (fun c => get c Name.info) entries) as [infos | e]; cbn [bind];
      [| reflexivity].
    destruct (Array_join LF infos) as [cs | e]; cbn [bind completes]; [| reflexivity].
    apply (completes_members gp [cs; p]). }
  destruct ctx as [| | v]; try apply (Harr []).
  destruct v; try reflexivity. apply Harr.
Qed.

Lemma fullPrompt_without_guardrail (ctx guard : resource) (prompt : value) :
  load_guardrailPrompt guard = VStr "" ->
  fullPrompt ctx guard prompt = context_and_prompt ctx prompt.
Proof.
  intros H. unfold fullPrompt, context_and_prompt. rewrite H. reflexivity.
Qed.

Lemma load_guardrailPrompt_absent (f : resource) :
  guardrail_absent f = true -> load_guardrailPrompt f = VStr "".
Proof.
  destruct f as [| | g]; simpl; intros H; try reflexivity.
  apply load_guardrailPrompt_falsy, H.
Qed.

Lemma load_contextArr_absent (f : resource) :
  context_absent f = true -> load_contextArr f = VArr [].
Proof.
  destruct f as [| | v]; simpl; intros H; try reflexivity.
  destruct v as [| | | | | items |]; try discriminate.
  destruct items; [reflexivity | discriminate].
Qed.

(** C5. When the context resource is empty or missing and the guardrail
    resource is empty or missing, the composite input is the caller's
    prompt, unchanged. *)
Theorem fullPrompt_identity_without_resources (ctx guard : resource) (p : string) :
  context_absent ctx = true ->
  guardrail_absent guard = true ->
  fullPrompt ctx guard (VStr p) = Normal p.
Proof.
  intros Hc Hg.
  rewrite (fullPrompt_of_strings ctx guard [] "" p).
  - f_equal. apply (concat_singleton_or_nil separator p).
  - rewrite (load_contextArr_absent _ Hc). reflexivity.
  - apply load_guardrailPrompt_absent, Hg.
Qed.

Lemma fullPrompt_identity_without_resources_witness :
  fullPrompt (Parsed (VArr [])) (Parsed (VObj [("note", VStr "no prompt here")]))
             (VStr "What is the refund policy?")
  = Normal "What is the refund policy?".
Proof.
  apply fullPrompt_identity_without_resources; reflexivity.
Defined.

(** C10. When the guardrail file parses but the [prompt] of its value is
    absent, [null], the empty string or otherwise falsy, the guardrail
    directive is the empty string, the composite input is the one a read
    or a parse failure of that file gives, and only the context block and
    the prompt take part in the join: for a context with string [info]
    fields and a string prompt, the composite input is the join of the
    non-empty ones among these two. *)
Theorem falsy_guardrail_is_no_guardrail (ctx : resource) (g prompt : value) :
  prompt_falsy g = true ->
  load_guardrailPrompt (Parsed g) = VStr ""
  /\ fullPrompt ctx (Parsed g) prompt = fullPrompt ctx Unreadable prompt
  /\ fullPrompt ctx (Parsed g) prompt = fullPrompt ctx Unparsable prompt
  /\ fullPrompt ctx (Parsed g) prompt = context_and_prompt ctx prompt
  /\ (forall entries infos p,
        ctx = Parsed (VArr entries) ->
        prompt = VStr p ->
        Forall2 (fun c i => get c Name.info = Normal (VStr i)) entries infos ->
        fullPrompt ctx (Parsed g) prompt
        = Normal (String.concat separator (filter nonempty [String.concat LF infos; p]))).
Proof.
  intros H. pose proof (load_guardrailPrompt_falsy g H) as Hg.
  split; [exact Hg |].
  split; [rewrite !fullPrompt_without_guardrail; auto |].
  split; [rewrite !fullPrompt_without_guardrail; auto |].
  split; [apply fullPrompt_without_guardrail, Hg |].
  intros entries infos p -> -> Hentries.
  rewrite (fullPrompt_of_strings _ _ infos "" p).
  - reflexivity.
  - simpl. apply mapM_get_strings, Hentries.
  - exact Hg.
Qed.

Lemma falsy_guardrail_is_no_guardrail_witness :
  fullPrompt (Parsed (VArr [VObj [("info", VStr "A")]]))
             (Parsed (VObj [("prompt", VNum "0")])) (VStr "P")
  = fullPrompt (Parsed (VArr [VObj [("info", VStr "A")]])) Unreadable (VStr "P").
Proof.
  apply (falsy_guardrail_is_no_guardrail
           (Parsed (VArr [VObj [("info", VStr "A")]]))
           (VObj [("prompt", VNum "0")]) (VStr "P")).
  reflexivity.
Defined.

(** C4, as the code has it. A read or a parse failure of the context file
    is treated as the empty sequence, one of the guardrail file as the
    empty string, and with both files failing the assembly gives the prompt
    alone. A file that parses is used as it is: the assembly completes
    exactly when the context value is an array of entries that are not
    [null] and whose [info] converts to a string, and the guardrail
    [prompt] is falsy or converts to a string; otherwise it throws. *)
Theorem fullPrompt_tolerates_load_failures :
  (forall guard prompt,
      fullPrompt Unreadable guard prompt = fullPrompt (Parsed (VArr [])) guard prompt
      /\ fullPrompt Unparsable guard prompt = fullPrompt (Parsed (VArr [])) guard prompt)
  /\ (forall ctx prompt,
      fullPrompt ctx Unreadable prompt
        = fullPrompt ctx (Parsed (VObj [("prompt", VStr "")])) prompt
      /\ fullPrompt ctx Unparsable prompt
        = fullPrompt ctx (Parsed (VObj [("prompt", VStr "")])) prompt)
  /\ (forall p,
      fullPrompt Unreadable Unreadable (VStr p) = Normal p
      /\ fullPrompt Unreadable Unparsable (VStr p) = Normal p
      /\ fullPrompt Unparsable Unreadable (VStr p) = Normal p
      /\ fullPrompt Unparsable Unparsable (VStr p) = Normal p)
  /\ (forall ctx guard p,
      completes (fullPrompt ctx guard (VStr p))
      = context_usable ctx && guardrail_usable guard).
Proof.
  split; [intros; split; reflexivity |].
  split; [intros; split; reflexivity |].
  split.
  - intros p.
    repeat split;
      (rewrite (fullPrompt_of_strings _ _ [] "" p) by reflexivity;
       f_equal; apply (concat_singleton_or_nil separator p)).
  - apply fullPrompt_completes.
Qed.

(** C4 as stated fails: a context file that parses to an object, here a
    single entry that is not wrapped in an array, makes the assembler
    throw, and the handler with it. *)
Lemma fullPrompt_throws_on_object_context :
  is_json (VObj [("info", VStr "A")]) = true
  /\ fullPrompt (Parsed (VObj [("info", VStr "A")])) Unreadable (VStr "P")
     = Throw (TypeError "contextArr.map is not a function")
  /\ post_v1_chat
       {| context_json := Parsed (VObj [("info", VStr "A")]);
          guardrail_json := Unreadable;
          responses_create := fun _ => Resolved greeting |}
       [("role", VStr "user"); ("prompt", VStr "P")]
     = {| upstream := [];
          response := Throw (TypeError "contextArr.map is not a function") |}.
Proof. repeat split. Qed.

(** ** Text extraction *)

Lemma map_then_join (f : value -> completion value) (sep : string)
      (R : value -> string -> Prop) (xs : list value) (ss : list string) :
  (forall x s, R x s -> exists v, f x = Normal v /\ join_element v = Normal s) ->
  Forall2 R xs ss ->
  exists vs, mapM f xs = Normal vs /\ Array_join sep vs = Normal (String.concat sep ss).
Proof.
  intros Hstep H. unfold Array_join.
  assert (exists vs, mapM f xs = Normal vs /\ mapM join_element vs = Normal ss) as (vs & Hm & Hj).
  { induction H as [| x s xs ss Hx _ (vs & Hm & Hj)].
    - exists []. split; reflexivity.
    - destruct (Hstep x s Hx) as (v & Hf & Hv).
      exists (v :: vs). simpl. rewrite Hf, Hm, Hv, Hj. split; reflexivity. }
  exists vs. rewrite Hm, Hj. split; reflexivity.
Qed.

Lemma fragment_reads_text (c : value) (t : string) :
  fragment_reads c t ->
  exists v, get c Name.text = Normal v /\ join_element v = Normal t.
Proof.
  intros [c' t' H | c' v H Hn].
  - exists (VStr t'). split; [exact H | reflexivity].
  - exists v. split; [exact H |]. unfold join_element. rewrite Hn. reflexivity.
Qed.

Lemma item_reads_text (o : value) (s : string) :
  item_reads o s ->
  exists v, item_text o = Normal v /\ join_element v = Normal s.
Proof.
  intros [o' fragments ts Hc Hfr | o' v Hc Hn]; unfold item_text; rewrite Hc; cbn [bind].
  - cbn [nullish Array_map].
    destruct (map_then_join (fun c => get c Name.text) "" fragment_reads fragments ts
                fragment_reads_text Hfr) as (vs & Hm & Hj).
    rewrite Hm. cbn [bind]. rewrite Hj. cbn [bind].
    exists (VStr (String.concat "" ts)). split; reflexivity.
  - rewrite Hn. exists VUndef. split; reflexivity.
Qed.

(** C3. The text extracted from a response [r] is [r.output_text] when
    that field is neither [null] nor [undefined]. Otherwise it is the
    texts of the items of [r.output] joined with a newline, the text of an
    item being its content fragments' texts joined with no separator; and
    it is the empty string when [r.output] is [null] or [undefined] too,
    or when that join is empty. *)
Theorem extract_text_prefers_output_text (r direct : value) :
  get r Name.output_text = Normal direct ->
  (nullish direct = false -> extract_text r = Normal direct)
  /\ (nullish direct = true ->
      forall items texts,
        get r Name.output = Normal (VArr items) ->
        Forall2 item_reads items texts ->
        extract_text r = Normal (VStr (String.concat LF texts)))
  /\ (nullish direct = true ->
      forall out,
        get r Name.output = Normal out ->
        nullish out = true ->
        extract_text r = Normal (VStr "")).
Proof.
  intros Hd. unfold extract_text. rewrite Hd. cbn [bind]. unfold coalesce.
  split; [intros ->; reflexivity |].
  split; intros ->.
  - intros items texts Hout Hitems. rewrite Hout. cbn [bind nullish Array_map].
    destruct (map_then_join item_text LF item_reads items texts item_reads_text Hitems)
      as (vs & Hm & Hj).
    rewrite Hm. cbn [bind]. rewrite Hj. cbn [bind].
    apply or_else_empty_string.
  - intros out Hout Hn. rewrite Hout. cbn [bind]. rewrite Hn. reflexivity.
Qed.

Lemma extract_text_prefers_output_text_witness :
  extract_text
    (VObj [("output",
            VArr [VObj [("type", VStr "reasoning")];
                  VObj [("content",
                         VArr [VObj [("type", VStr "output_text"); ("text", VStr "Hel")];
                               VObj [("text", VStr "lo")]])];
                  VObj [("content", VArr [VObj [("text", VStr "world")]])]])])
  = Normal (VStr ("" ++ LF ++ "Hello" ++ LF ++ "world")).
Proof.
  match goal with
  | |- extract_text ?r = _ =>
      refine (proj1 (proj2 (extract_text_prefers_output_text r VUndef eq_refl)) eq_refl _
                [""; "Hello"; "world"] eq_refl _)
  end.
  constructor; [apply content_absent with (v := VUndef); reflexivity |].
  constructor.
  { apply content_present with (ts := ["Hel"; "lo"])
      (fragments := [VObj [("type", VStr "output_text"); ("text", VStr "Hel")];
                     VObj [("text", VStr "lo")]]); [reflexivity |].
    repeat constructor. }
  constructor; [| constructor].
  apply content_present with (ts := ["world"])
    (fragments := [VObj [("text", VStr "world")]]); [reflexivity |].
  repeat constructor.
Defined.

(** ** What the code can throw by itself *)

Lemma get_throws (v : value) (k : Name.t) (e : value) :
  get v k = Throw e -> is_TypeError e.
Proof.
  destruct v; simpl; intros H; try discriminate.
  - injection H as <-. eexists; reflexivity.
  - injection H as <-. eexists; reflexivity.
  - destruct (lookup (name_text k) props); discriminate.
Qed.

Lemma mapM_throws {A B} (f : A -> completion B) (l : list A) (e : value) :
  Forall (fun x => forall e', f x = Throw e' -> is_TypeError e') l ->
  mapM f l = Throw e -> is_TypeError e.
Proof.
  induction 1 as [| x l Hx _ IH]; simpl.
  - discriminate.
  - destruct (f x) as [y | e'] eqn:Ef; cbn [bind].
    + destruct (mapM f l) as [ys | e'']; cbn [bind]; [discriminate |].
      intros H. injection H as <-. apply IH. reflexivity.
    + intros H. injection H as <-. apply Hx. reflexivity.
Qed.

Lemma ToString_array (items : list value) :
  ToString (VArr items) = Array_join "," items.
Proof.
  unfold Array_join. cbn [ToString]. f_equal.
  induction items as [| x items IH]; [reflexivity |].
  cbn [mapM]. unfold join_element at 1. rewrite IH. reflexivity.
Qed.

Lemma ToString_throws (v e : value) :
  ToString v = Throw e -> is_TypeError e.
Proof.
  revert e. induction v as [| | b | r | s | items IH | props _] using value_ind'; intros e.
  - discriminate.
  - discriminate.
  - destruct b; discriminate.
  - discriminate.
  - discriminate.
  - rewrite ToString_array. unfold Array_join.
    destruct (mapM join_element items) as [parts | e'] eqn:Em; cbn [bind]; [discriminate |].
    intros H. injection H as <-. apply (mapM_throws join_element items); [| exact Em].
    apply Forall_impl with (2 := IH). intros x Hx e''. unfold join_element.
    destruct (nullish x); [discriminate | apply Hx].
  - simpl. destruct (lookup "toString" props); [| discriminate].
    intros H. injection H as <-. eexists; reflexivity.
Qed.

Lemma join_element_throws (v e : value) :
  join_element v = Throw e -> is_TypeError e.
Proof.
  unfold join_element. destruct (nullish v); [discriminate | apply ToString_throws].
Qed.

Lemma Array_join_throws (sep : string) (items : list value) (e : value) :
  Array_join sep items = Throw e -> is_TypeError e.
Proof.
  unfold Array_join.
  destruct (mapM join_element items) as [parts | e'] eqn:Em; cbn [bind]; [discriminate |].
  intros H. injection H as <-. apply (mapM_throws join_element items); [| exact Em].
  apply Forall_forall. intros x _ e''. apply join_element_throws.
Qed.

Lemma Array_map_throws (callee : string) (f : value -> completion value) (arr e : value) :
  (forall x e', f x = Throw e' -> is_TypeError e') ->
  Array_map callee f arr = Throw e -> is_TypeError e.
Proof.
  intros Hf. destruct arr; simpl; intros H;
    try (injection H as <-; eexists; reflexivity).
  apply (mapM_throws f items); [| exact H].
  apply Forall_forall. intros x _. apply Hf.
Qed.

Lemma item_text_throws (o e : value) :
  item_text o = Throw e -> is_TypeError e.
Proof.
  unfold item_text.
  destruct (get o Name.content) as [cs | e'] eqn:Ec; cbn [bind].
  - destruct (nullish cs); [discriminate |].
    destruct (Array_map "o.content?" (fun c => get c Name.text) cs) as [texts | e'] eqn:Em;
      cbn [bind].
    + destruct (Array_join "" texts) as [s | e'] eqn:Ej; cbn [bind]; [discriminate |].
      intros H. injection H as <-. apply (Array_join_throws _ _ _ Ej).
    + intros H. injection H as <-. apply (Array_map_throws _ _ _ _ (fun x => get_throws x _) Em).
  - intros H. injection H as <-. apply (get_throws _ _ _ Ec).
Qed.

(** The fallback of line 109 gives a string or throws a [TypeError]. *)
Lemma extract_text_cases (r : value) :
  match extract_text r with
  | Normal v =>
      (get r Name.output_text = Normal v /\ nullish v = false) \/ exists s, v = VStr s
  | Throw e => is_TypeError e
  end.
Proof.
  unfold extract_text.
  destruct (get r Name.output_text) as [direct | e] eqn:Ed; cbn [bind];
    [| apply (get_throws _ _ _ Ed)].
  unfold coalesce. destruct (nullish direct) eqn:En; [| left; split; [reflexivity | exact En]].
  destruct (get r Name.output) as [out | e] eqn:Eo; cbn [bind];
    [| apply (get_throws _ _ _ Eo)].
  destruct (nullish out).
  - cbn [bind]. right. exists "". reflexivity.
  - destruct (Array_map "r.output?" item_text out) as [parts | e] eqn:Em; cbn [bind];
      [| apply (Array_map_throws _ _ _ _ item_text_throws Em)].
    destruct (Array_join LF parts) as [s | e] eqn:Ej; cbn [bind];
      [| apply (Array_join_throws _ _ _ Ej)].
    rewrite or_else_empty_string. right. exists s. reflexivity.
Qed.

(** ** Requests that pass validation *)

Lemma valid_field_string (field : option value) :
  valid_field field = true ->
  exists s, field = Some (VStr s) /\ nonempty s = true.
Proof.
  destruct field as [[| | | | s | |] |]; simpl; try discriminate.
  intros H. exists s. split; [reflexivity | exact H].
Qed.

Lemma string_required_valid (label s : string) :
  nonempty s = true -> string_required label (Some (VStr s)) = None.
Proof.
  unfold nonempty. simpl. destruct (String.eqb s ""); [discriminate | reflexivity].
Qed.

Lemma valid_body_accepted (body : list (string * value)) :
  valid_body body = true ->
  exists r p,
    lookup "role" body = Some (VStr r) /\ lookup "prompt" body = Some (VStr p)
    /\ nonempty r = true /\ nonempty p = true
    /\ bodySchema_validate body = (VObj [("role", VStr r); ("prompt", VStr p)], None).
Proof.
  unfold valid_body. intros H. apply andb_true_iff in H as [Hr Hp].
  apply valid_field_string in Hr as (r & Hr & Hr').
  apply valid_field_string in Hp as (p & Hp & Hp').
  exists r, p. repeat (split; [assumption |]).
  unfold bodySchema_validate, keep. rewrite Hr, Hp.
  rewrite !string_required_valid by assumption. reflexivity.
Qed.

Lemma post_v1_chat_accepted (w : World) (body : list (string * value)) (r p : string) :
  bodySchema_validate body = (VObj [("role", VStr r); ("prompt", VStr p)], None) ->
  post_v1_chat w body
  = {| upstream := calls (getChatResponse w (VStr r) (VStr p));
       response := output_text <- result (getChatResponse w (VStr r) (VStr p)) ;;
                   Normal (success output_text) |}.
Proof.
  intros H. unfold post_v1_chat. rewrite H. reflexivity.
Qed.

Lemma getChatResponse_assembled (w : World) (role prompt : value) (full : string) :
  fullPrompt w.(context_json) w.(guardrail_json) prompt = Normal full ->
  getChatResponse w role prompt
  = {| calls := [gpt5_request role full];
       result := try_catch
                   (r <- await (w.(responses_create) (gpt5_request role full)) ;;
                    extract_text r)
                   placeholder |}.
Proof.
  intros H. unfold getChatResponse. rewrite H. reflexivity.
Qed.

Lemma getChatResponse_not_assembled (w : World) (role prompt e : value) :
  fullPrompt w.(context_json) w.(guardrail_json) prompt = Throw e ->
  getChatResponse w role prompt = {| calls := []; result := Throw e |}.
Proof.
  intros H. unfold getChatResponse. rewrite H. reflexivity.
Qed.

Lemma getChatResponse_calls (w : World) (role prompt : value) (q : CreateParams) :
  In q (calls (getChatResponse w role prompt)) ->
  exists full,
    fullPrompt w.(context_json) w.(guardrail_json) prompt = Normal full
    /\ calls (getChatResponse w role prompt) = [q]
    /\ q = gpt5_request role full.
Proof.
  destruct (fullPrompt w.(context_json) w.(guardrail_json) prompt) as [full | e] eqn:E.
  - rewrite (getChatResponse_assembled _ _ _ _ E). simpl.
    intros [<- | []]. exists full. repeat split.
  - rewrite (getChatResponse_not_assembled _ _ _ _ E). simpl. intros [].
Qed.

(** ** The error placeholder *)

Lemma get_opt_field (v : value) (k : Name.t) :
  get_opt v k = Normal (field v k).
Proof.
  unfold field, get_opt.
  destruct v; simpl; try reflexivity.
  destruct (lookup (name_text k) props); reflexivity.
Qed.

Lemma get_field (v : value) (k : Name.t) :
  nullish v = false -> get v k = Normal (field v k).
Proof.
  intros H. rewrite <- get_opt_field. unfold get_opt. rewrite H. reflexivity.
Qed.

Lemma error_message_truthy (e : value) :
  nullish e = false -> error_message e = Normal (truthy_message e).
Proof.
  intros H. unfold error_message, truthy_message.
  rewrite get_opt_field. cbn [bind]. rewrite get_opt_field. cbn [bind].
  rewrite (get_field _ _ H). cbn [bind]. unfold or_else.
  destruct (ToBoolean (field (field e Name.error) Name.message)); [reflexivity |].
  destruct (ToBoolean (field e Name.message)); reflexivity.
Qed.

Lemma placeholder_of_message (e : value) (s : string) :
  nullish e = false ->
  ToString (truthy_message e) = Normal s ->
  placeholder e = Normal (VStr ("[OpenAI error: " ++ s ++ "]")).
Proof.
  intros He Hs. unfold placeholder, append_value.
  rewrite (error_message_truthy _ He). cbn [bind]. rewrite Hs. cbn [bind].
  reflexivity.
Qed.

Lemma placeholder_of_TypeError (e : value) :
  is_TypeError e -> exists s, placeholder e = Normal (VStr s).
Proof.
  intros [msg ->].
  destruct (String.eqb msg "") eqn:E.
  - exists ("[OpenAI error: " ++ "Unknown error" ++ "]").
    apply placeholder_of_message; [reflexivity |].
    unfold truthy_message. simpl. rewrite E. reflexivity.
  - exists ("[OpenAI error: " ++ msg ++ "]").
    apply placeholder_of_message; [reflexivity |].
    unfold truthy_message. simpl. rewrite E. reflexivity.
Qed.

(** C2, as the code has it. When the handler, for a request that passed
    validation, has called the completion service and the call is rejected
    with an error object [e], [getChatResponse] returns the string made of
    the prefix, the message and a closing bracket, where the message is
    [e.error.message] if truthy, else [e.message] if truthy, else the text
    Unknown error; and the reply has status 200, [ok: true] and this string
    as [output_text]. *)
Theorem upstream_failure_becomes_placeholder
        (w : World) (req : list (string * value)) (q : CreateParams) (e : value) (s : string) :
  valid_body req = true ->
  upstream (post_v1_chat w req) = [q] ->
  w.(responses_create) q = Rejected e ->
  nullish e = false ->
  ToString (truthy_message e) = Normal s ->
  exists r p,
    lookup "role" req = Some (VStr r) /\ lookup "prompt" req = Some (VStr p)
    /\ result (getChatResponse w (VStr r) (VStr p))
       = Normal (VStr ("[OpenAI error: " ++ s ++ "]"))
    /\ response (post_v1_chat w req)
       = Normal {| status := 200;
                   body := VObj [("ok", VBool true); ("model", VStr "gpt-5");
                                 ("output_text", VStr ("[OpenAI error: " ++ s ++ "]"));
                                 ("usage", VNull); ("raw", VNull)] |}.
Proof.
  intros Hvalid Hcall Hrej He Hs.
  destruct (valid_body_accepted req Hvalid) as (r & p & Hr & Hp & _ & _ & Hv).
  exists r, p. split; [exact Hr |]. split; [exact Hp |].
  rewrite (post_v1_chat_accepted w req r p Hv) in *. cbn [upstream response] in *.
  assert (Hin : In q (calls (getChatResponse w (VStr r) (VStr p))))
    by (rewrite Hcall; left; reflexivity).
  destruct (getChatResponse_calls _ _ _ _ Hin) as (full & Hfull & _ & ->).
  rewrite (getChatResponse_assembled _ _ _ _ Hfull). cbn [result].
  rewrite Hrej. cbn [await bind try_catch].
  rewrite (placeholder_of_message e s He Hs). split; reflexivity.
Qed.

Lemma upstream_failure_becomes_placeholder_witness :
  exists r p,
    lookup "role" [("role", VStr "user"); ("prompt", VStr "Hi")] = Some (VStr r)
    /\ lookup "prompt" [("role", VStr "user"); ("prompt", VStr "Hi")] = Some (VStr p)
    /\ result (getChatResponse offline (VStr r) (VStr p))
       = Normal (VStr ("[OpenAI error: " ++ "Connection error." ++ "]"))
    /\ response (post_v1_chat offline [("role", VStr "user"); ("prompt", VStr "Hi")])
       = Normal {| status := 200;
                   body := VObj [("ok", VBool true); ("model", VStr "gpt-5");
                                 ("output_text",
                                  VStr ("[OpenAI error: " ++ "Connection error." ++ "]"));
                                 ("usage", VNull); ("raw", VNull)] |}.
Proof.
  apply (upstream_failure_becomes_placeholder offline
           [("role", VStr "user"); ("prompt", VStr "Hi")]
           (gpt5_request (VStr "user") "Hi") connection_error "Connection error.");
    reflexivity.
Defined.

(** C2 as stated fails: an error whose [error.message] is present but
    empty does not give the placeholder around that message; the code
    falls through to [e.message]. *)
Lemma placeholder_skips_present_empty_message :
  present_message empty_api_message = VStr ""
  /\ result (getChatResponse
               {| context_json := Unreadable; guardrail_json := Unreadable;
                  responses_create := fun _ => Rejected empty_api_message |}
               (VStr "user") (VStr "Hi"))
     = Normal (VStr ("[OpenAI error: 400 {" ++ quoted "message" ++ ":" ++ quoted "" ++ "}]"))
  /\ "[OpenAI error: 400 {" ++ quoted "message" ++ ":" ++ quoted "" ++ "}]"
     <> "[OpenAI error: " ++ "" ++ "]".
Proof.
  split; [reflexivity |]. split; [reflexivity |]. discriminate.
Qed.

(** ** The reply to a valid request *)

Lemma try_extract_is_string (p : settled) :
  settled_typed p = true ->
  exists s, try_catch (r <- await p ;; extract_text r) placeholder = Normal (VStr s).
Proof.
  destruct p as [r | e]; cbn [settled_typed await bind]; intros H.
  - pose proof (extract_text_cases r) as Hcases.
    destruct (extract_text r) as [v | e]; cbn [try_catch].
    + destruct Hcases as [[Hd Hn] | [s ->]]; [| exists s; reflexivity].
      rewrite Hd, Hn in H. destruct v; try discriminate. exists s. reflexivity.
    + apply placeholder_of_TypeError, Hcases.
  - apply andb_true_iff in H as [He Hs]. apply negb_true_iff in He.
    apply completes_Normal in Hs as [s Hs]. cbn [try_catch].
    rewrite (placeholder_of_message e s He Hs). eexists; reflexivity.
Qed.

Lemma placeholder_is_string (e out : value) :
  placeholder e = Normal out -> exists s, out = VStr s.
Proof.
  unfold placeholder.
  destruct (error_message e) as [m | e']; cbn [bind]; [| discriminate].
  destruct (append_value "[OpenAI error: " m) as [s | e']; cbn [bind]; [| discriminate].
  intros H. injection H as <-. eexists; reflexivity.
Qed.

Lemma try_extract_not_nullish (p : settled) (out : value) :
  try_catch (r <- await p ;; extract_text r) placeholder = Normal out ->
  nullish out = false.
Proof.
  destruct p as [r | e]; cbn [await bind].
  - pose proof (extract_text_cases r) as Hcases.
    destruct (extract_text r) as [v | e]; cbn [try_catch].
    + intros H. injection H as <-.
      destruct Hcases as [[_ Hn] | [s ->]]; [exact Hn | reflexivity].
    + intros H. apply placeholder_is_string in H as [s ->]. reflexivity.
  - cbn [try_catch]. intros H. apply placeholder_is_string in H as [s ->]. reflexivity.
Qed.

(** C6. For every request body whose [role] and [prompt] are non-empty
    strings, with resource files the assembler can use and a completion
    client that keeps to its types, the reply has status 200 and
    [ok: true], and its [output_text] is a string, also when the upstream
    call is rejected. And whatever the files and the client do, a reply
    sent for such a body has status 200, [ok: true] and an [output_text]
    that is neither [null] nor [undefined]. *)
Theorem valid_request_gets_200_with_text :
  (forall (w : World) (req : list (string * value)),
      valid_body req = true ->
      context_usable w.(context_json) = true ->
      guardrail_usable w.(guardrail_json) = true ->
      (forall q, settled_typed (w.(responses_create) q) = true) ->
      exists s,
        response (post_v1_chat w req)
        = Normal {| status := 200;
                    body := VObj [("ok", VBool true); ("model", VStr "gpt-5");
                                  ("output_text", VStr s); ("usage", VNull);
                                  ("raw", VNull)] |})
  /\ (forall (w : World) (req : list (string * value)) (rep : reply),
      valid_body req = true ->
      response (post_v1_chat w req) = Normal rep ->
      exists out,
        rep = {| status := 200;
                 body := VObj [("ok", VBool true); ("model", VStr "gpt-5");
                               ("output_text", out); ("usage", VNull); ("raw", VNull)] |}
        /\ nullish out = false).
Proof.
  split.
  - intros w req Hvalid Hctx Hguard Hremote.
    destruct (valid_body_accepted req Hvalid) as (r & p & _ & _ & _ & _ & Hv).
    rewrite (post_v1_chat_accepted w req r p Hv). cbn [response].
    destruct (completes_Normal (fullPrompt w.(context_json) w.(guardrail_json) (VStr p)))
      as [full Hfull].
    { rewrite fullPrompt_completes, Hctx, Hguard. reflexivity. }
    rewrite (getChatResponse_assembled _ _ _ _ Hfull). cbn [result].
    destruct (try_extract_is_string _ (Hremote (gpt5_request (VStr r) full))) as [s Hs].
    rewrite Hs. exists s. reflexivity.
  - intros w req rep Hvalid.
    destruct (valid_body_accepted req Hvalid) as (r & p & _ & _ & _ & _ & Hv).
    rewrite (post_v1_chat_accepted w req r p Hv). cbn [response].
    destruct (fullPrompt w.(context_json) w.(guardrail_json) (VStr p)) as [full | e] eqn:E.
    + rewrite (getChatResponse_assembled _ _ _ _ E). cbn [result].
      destruct (try_catch _ placeholder) as [out | e] eqn:Et; cbn [bind]; [| discriminate].
      intros H. injection H as <-. exists out. split; [reflexivity |].
      apply (try_extract_not_nullish _ _ Et).
    + rewrite (getChatResponse_not_assembled _ _ _ _ E). cbn [result bind]. discriminate.
Qed.

Lemma valid_request_gets_200_with_text_witness :
  exists s,
    response (post_v1_chat online [("role", VStr "user"); ("prompt", VStr "P"); ("x", VNull)])
    = Normal {| status := 200;
                body := VObj [("ok", VBool true); ("model", VStr "gpt-5");
                              ("output_text", VStr s); ("usage", VNull); ("raw", VNull)] |}.
Proof.
  apply (proj1 valid_request_gets_200_with_text online
           [("role", VStr "user"); ("prompt", VStr "P"); ("x", VNull)]);
    reflexivity.
Defined.

(** ** The preset *)

(** C8. Every call the handler makes to the completion service carries the
    settings of the preset named gpt-5: that model identifier, temperature
    0.7 and 1024 output tokens, whatever the request body holds, although
    the table has two other presets; a valid request whose composite input
    is assembled makes exactly one such call; and every reply with status
    200 has the string gpt-5 as its [model]. *)
Theorem handler_always_uses_gpt5 :
  (forall w body q,
      In q (upstream (post_v1_chat w body)) ->
      req_model q = "gpt-5"
      /\ req_temperature q = VNum "0.7"
      /\ req_max_output_tokens q = VNum "1024")
  /\ (forall w body r p full,
      valid_body body = true ->
      lookup "role" body = Some (VStr r) ->
      lookup "prompt" body = Some (VStr p) ->
      fullPrompt w.(context_json) w.(guardrail_json) (VStr p) = Normal full ->
      upstream (post_v1_chat w body) = [gpt5_request (VStr r) full])
  /\ (forall w req rep,
      response (post_v1_chat w req) = Normal rep ->
      status rep = 200 ->
      exists props, rep.(body) = VObj props /\ lookup "model" props = Some (VStr "gpt-5"))
  /\ (preset_of "gpt-5-mini" MODEL_PRESETS
        = Some {| model := "gpt-5-mini"; temperature := VNum "0.5";
                  max_output_tokens := VNum "768" |}
      /\ preset_of "gpt-5-chat-latest" MODEL_PRESETS
        = Some {| model := "gpt-5-chat-latest"; temperature := VNum "0.7";
                  max_output_tokens := VNum "1024" |}).
Proof.
  split; [| split; [| split; [| split; reflexivity]]].
  - intros w body q. unfold post_v1_chat.
    destruct (bodySchema_validate body) as [value [msg |]]; cbn [upstream]; [intros [] |].
    destruct (r <- get value Name.role ;; p <- get value Name.prompt ;; Normal (r, p))
      as [[r p] | e]; cbn [upstream]; [| intros []].
    intros Hin. destruct (getChatResponse_calls _ _ _ _ Hin) as (full & _ & _ & ->).
    repeat split.
  - intros w body r p full Hvalid Hr Hp Hfull.
    destruct (valid_body_accepted body Hvalid) as (r' & p' & Hr' & Hp' & _ & _ & Hv).
    rewrite Hr in Hr'. rewrite Hp in Hp'. injection Hr' as <-. injection Hp' as <-.
    rewrite (post_v1_chat_accepted w body r p Hv). cbn [upstream].
    rewrite (getChatResponse_assembled _ _ _ _ Hfull). reflexivity.
  - intros w req rep. unfold post_v1_chat.
    destruct (bodySchema_validate req) as [value [msg |]]; cbn [response].
    + intros H. injection H as <-. discriminate.
    + destruct (r <- get value Name.role ;; p <- get value Name.prompt ;; Normal (r, p))
        as [[r p] | e]; cbn [response]; [| discriminate].
      destruct (result (getChatResponse w r p)) as [out | e]; cbn [bind]; [| discriminate].
      intros H _. injection H as <-. eexists. split; reflexivity.
Qed.

Lemma handler_always_uses_gpt5_witness :
  upstream (post_v1_chat online
              [("role", VStr "system"); ("prompt", VStr "P"); ("model", VStr "gpt-5-mini")])
  = [gpt5_request (VStr "system")
       ("G" ++ LF ++ "---" ++ LF ++ "A" ++ LF ++ "B" ++ LF ++ "---" ++ LF ++ "P")].
Proof.
  apply (proj1 (proj2 handler_always_uses_gpt5) online
           [("role", VStr "system"); ("prompt", VStr "P"); ("model", VStr "gpt-5-mini")]
           "system" "P");
    reflexivity.
Defined.

(** ** The role *)

(** C9. Two valid requests with the same prompt, run against the same
    files, send the same composite input whatever their roles: the text of
    the message is the assembled input for that prompt, the role of the
    message is the caller's role, and the two upstream requests differ by
    the role field of the message only. *)
Theorem role_only_reaches_message_role (w : World) (req1 req2 : list (string * value)) :
  valid_body req1 = true ->
  valid_body req2 = true ->
  lookup "prompt" req1 = lookup "prompt" req2 ->
  exists role1 role2 p,
    lookup "role" req1 = Some role1 /\ lookup "role" req2 = Some role2
    /\ lookup "prompt" req1 = Some p
    /\ map sent_text (upstream (post_v1_chat w req1))
       = map sent_text (upstream (post_v1_chat w req2))
    /\ Forall (fun q => exists full,
                 fullPrompt w.(context_json) w.(guardrail_json) p = Normal full
                 /\ sent_text q = Some (VStr full))
              (upstream (post_v1_chat w req1))
    /\ Forall (fun q => sent_role q = Some role1) (upstream (post_v1_chat w req1))
    /\ Forall (fun q => sent_role q = Some role2) (upstream (post_v1_chat w req2))
    /\ upstream (post_v1_chat w req2) = map (set_role role2) (upstream (post_v1_chat w req1)).
Proof.
  intros H1 H2 Hsame.
  destruct (valid_body_accepted req1 H1) as (r1 & p1 & Hr1 & Hp1 & _ & _ & Hv1).
  destruct (valid_body_accepted req2 H2) as (r2 & p2 & Hr2 & Hp2 & _ & _ & Hv2).
  rewrite Hp1, Hp2 in Hsame. injection Hsame as <-.
  exists (VStr r1), (VStr r2), (VStr p1).
  rewrite (post_v1_chat_accepted w req1 r1 p1 Hv1), (post_v1_chat_accepted w req2 r2 p1 Hv2).
  cbn [upstream].
  repeat (split; [assumption |]).
  destruct (fullPrompt w.(context_json) w.(guardrail_json) (VStr p1)) as [full | e] eqn:E.
  - rewrite !(getChatResponse_assembled _ _ _ _ E). cbn [calls].
    repeat split; repeat constructor. exists full. split; reflexivity.
  - rewrite !(getChatResponse_not_assembled _ _ _ _ E). cbn [calls].
    repeat split; constructor.
Qed.

Lemma role_only_reaches_message_role_witness :
  exists role1 role2 p,
    lookup "role" [("role", VStr "user"); ("prompt", VStr "P")] = Some role1
    /\ lookup "role" [("prompt", VStr "P"); ("role", VStr "system")] = Some role2
    /\ lookup "prompt" [("role", VStr "user"); ("prompt", VStr "P")] = Some p
    /\ map sent_text (upstream (post_v1_chat online [("role", VStr "user"); ("prompt", VStr "P")]))
       = map sent_text
           (upstream (post_v1_chat online [("prompt", VStr "P"); ("role", VStr "system")]))
    /\ Forall (fun q => exists full,
                 fullPrompt online.(context_json) online.(guardrail_json) p = Normal full
                 /\ sent_text q = Some (VStr full))
              (upstream (post_v1_chat online [("role", VStr "user"); ("prompt", VStr "P")]))
    /\ Forall (fun q => sent_role q = Some role1)
              (upstream (post_v1_chat online [("role", VStr "user"); ("prompt", VStr "P")]))
    /\ Forall (fun q => sent_role q = Some role2)
              (upstream (post_v1_chat online [("prompt", VStr "P"); ("role", VStr "system")]))
    /\ upstream (post_v1_chat online [("prompt", VStr "P"); ("role", VStr "system")])
       = map (set_role role2)
           (upstream (post_v1_chat online [("role", VStr "user"); ("prompt", VStr "P")])).
Proof.
  apply (role_only_reaches_message_role online
           [("role", VStr "user"); ("prompt", VStr "P")]
           [("prompt", VStr "P"); ("role", VStr "system")]);
    reflexivity.
Defined.

(** ** Rejected bodies *)

Lemma append_assoc (a b c : string) : (a ++ b) ++ c = a ++ b ++ c.
Proof.
  induction a as [| ch a IH]; simpl; [reflexivity | rewrite IH; reflexivity].
Qed.

Lemma string_required_cases (label : string) (f : option value) :
  (valid_field f = true /\ string_required label f = None)
  \/ (valid_field f = false
      /\ exists reason, string_required label f = Some (quoted label ++ reason)).
Proof.
  destruct f as [[| | | | s | |] |]; cbn [valid_field string_required];
    try (right; split; [reflexivity | eexists; reflexivity]).
  unfold nonempty. destruct (String.eqb s ""); cbn [negb].
  - right. split; [reflexivity | eexists; reflexivity].
  - left. split; reflexivity.
Qed.

(** C7. A body whose [role] or [prompt] is missing, empty or not a string
    gets status 400 and the body [{ok: false, error: {type: "BadRequest",
    message}}], with no upstream call; the message holds one sentence for
    each of the two fields that is violated, naming it, and when both
    fields are absent it says that the one and the other are required. *)
Theorem invalid_body_gets_400 (w : World) (req : list (string * value)) :
  valid_body req = false ->
  exists msgs,
    post_v1_chat w req
    = {| upstream := [];
         response :=
           Normal {| status := 400;
                     body := VObj [("ok", VBool false);
                                   ("error", VObj [("type", VStr "BadRequest");
                                                   ("message",
                                                    VStr (String.concat ". " msgs))])] |} |}
    /\ List.length msgs
       = (if valid_field (lookup "role" req) then 0 else 1)
         + (if valid_field (lookup "prompt" req) then 0 else 1)
    /\ (valid_field (lookup "role" req) = false ->
        mentions (quoted "role") (String.concat ". " msgs))
    /\ (valid_field (lookup "prompt" req) = false ->
        mentions (quoted "prompt") (String.concat ". " msgs))
    /\ (lookup "role" req = None ->
        lookup "prompt" req = None ->
        String.concat ". " msgs
        = quoted "role" ++ " is required. " ++ quoted "prompt" ++ " is required").
Proof.
  intros Hinvalid. unfold valid_body in Hinvalid.
  unfold post_v1_chat, bodySchema_validate.
  destruct (string_required_cases "role" (lookup "role" req)) as [[Vr Er] | [Vr [ra Er]]];
    destruct (string_required_cases "prompt" (lookup "prompt" req))
      as [[Vp Ep] | [Vp [rb Ep]]];
    rewrite Vr, Vp in *; try discriminate; rewrite Er, Ep; cbn [collect flat_map app].
  - exists [quoted "prompt" ++ rb]. split; [reflexivity |]. split; [reflexivity |].
    split; [discriminate |]. split.
    + intros _. exists "", rb. reflexivity.
    + intros Hr. rewrite Hr in Vr. discriminate.
  - exists [quoted "role" ++ ra]. split; [reflexivity |]. split; [reflexivity |].
    split; [| split].
    + intros _. exists "", ra. reflexivity.
    + discriminate.
    + intros _ Hp. rewrite Hp in Vp. discriminate.
  - exists [quoted "role" ++ ra; quoted "prompt" ++ rb].
    split; [reflexivity |]. split; [reflexivity |]. split; [| split].
    + intros _. exists "", (ra ++ ". " ++ quoted "prompt" ++ rb).
      cbn [String.concat]. rewrite append_assoc. reflexivity.
    + intros _. exists ((quoted "role" ++ ra) ++ ". "), rb.
      cbn [String.concat]. rewrite !append_assoc. reflexivity.
    + intros Hr Hp. rewrite Hr in Er. rewrite Hp in Ep.
      cbn [string_required] in Er, Ep. injection Er as Er. injection Ep as Ep.
      rewrite <- Er, <- Ep. reflexivity.
Qed.

Lemma invalid_body_gets_400_witness :
  exists msgs,
    post_v1_chat online [("prompt", VStr ""); ("role", VNum "7")]
    = {| upstream := [];
         response :=
           Normal {| status := 400;
                     body := VObj [("ok", VBool false);
                                   ("error", VObj [("type", VStr "BadRequest");
                                                   ("message",
                                                    VStr (String.concat ". " msgs))])] |} |}
    /\ List.length msgs
       = (if valid_field (lookup "role" [("prompt", VStr ""); ("role", VNum "7")])
          then 0 else 1)
         + (if valid_field (lookup "prompt" [("prompt", VStr ""); ("role", VNum "7")])
            then 0 else 1)
    /\ (valid_field (lookup "role" [("prompt", VStr ""); ("role", VNum "7")]) = false ->
        mentions (quoted "role") (String.concat ". " msgs))
    /\ (valid_field (lookup "prompt" [("prompt", VStr ""); ("role", VNum "7")]) = false ->
        mentions (quoted "prompt") (String.concat ". " msgs))
    /\ (lookup "role" [("prompt", VStr ""); ("role", VNum "7")] = None ->
        lookup "prompt" [("prompt", VStr ""); ("role", VNum "7")] = None ->
        String.concat ". " msgs
        = quoted "role" ++ " is required. " ++ quoted "prompt" ++ " is required").
Proof.
  apply (invalid_body_gets_400 online [("prompt", VStr ""); ("role", VNum "7")]).
  reflexivity.
Defined.


(** * Further properties of the code *)

(** ** The CORS option *)

Lemma split_not_nil (sep : ascii) (s : string) : split sep s <> [].
Proof.
  destruct s as [| c rest]; simpl; [discriminate |].
  destruct (Ascii.eqb c sep); [discriminate |].
  destruct (split sep rest); discriminate.
Qed.

Lemma concat_split (sep : ascii) (s : string) :
  String.concat (String sep "") (split sep s) = s.
Proof.
  induction s as [| c rest IH]; [reflexivity |].
  cbn [split]. destruct (Ascii.eqb c sep) eqn:E.
  - apply Ascii.eqb_eq in E. subst c.
    pose proof (split_not_nil sep rest) as Hne.
    destruct (split sep rest) as [| piece pieces]; [contradiction |].
    cbn [String.concat] in *. rewrite IH. reflexivity.
  - pose proof (split_not_nil sep rest) as Hne.
    destruct (split sep rest) as [| piece pieces]; [contradiction |].
    rewrite <- IH. cbn [String.concat]. destruct pieces; reflexivity.
Qed.

Lemma split_pieces (sep : ascii) (s : string) :
  List.length (split sep s) = S (count_char sep s)
  /\ Forall (fun piece => count_char sep piece = 0) (split sep s).
Proof.
  induction s as [| c rest [IHlen IHall]].
  - split; [reflexivity | repeat constructor].
  - cbn [split count_char]. destruct (Ascii.eqb c sep) eqn:E.
    + split; [cbn [List.length]; rewrite IHlen; reflexivity |].
      constructor; [reflexivity | exact IHall].
    + destruct (split sep rest) as [| piece pieces].
      * discriminate IHlen.
      * split; [exact IHlen |].
        inversion IHall as [| ? ? Hpiece Hpieces]; subst.
        constructor; [| exact Hpieces].
        cbn [count_char]. rewrite E. exact Hpiece.
Qed.

(** X1. The CORS option is [true] for the one-character value [*] and for
    no other; any other value gives a list of origins taken verbatim: the
    list is not empty and joining it with commas gives the value back, so
    nothing is trimmed or dropped. *)
Theorem cors_origin_verbatim (CORS_ORIGIN : string) :
  (cors_origin_option CORS_ORIGIN = OriginTrue <-> CORS_ORIGIN = "*")
  /\ (forall origins,
        cors_origin_option CORS_ORIGIN = OriginList origins ->
        origins <> [] /\ String.concat "," origins = CORS_ORIGIN).
Proof.
  unfold cors_origin_option. destruct (String.eqb CORS_ORIGIN "*") eqn:E.
  - apply String.eqb_eq in E. split; [tauto | discriminate].
  - apply String.eqb_neq in E. split.
    + split; [discriminate | contradiction].
    + intros origins H. injection H as <-.
      split; [apply split_not_nil | apply (concat_split ","%char)].
Qed.

Lemma cors_origin_verbatim_witness :
  [" https://b.example"; "*"; ""] <> []
  /\ String.concat "," [" https://b.example"; "*"; ""] = " https://b.example,*,".
Proof.
  apply (proj2 (cors_origin_verbatim " https://b.example,*,")). reflexivity.
Defined.

(** X2. When the CORS option is a list, it has one origin more than the
    value has commas, and no origin contains a comma. *)
Theorem cors_origin_pieces (CORS_ORIGIN : string) (origins : list string) :
  cors_origin_option CORS_ORIGIN = OriginList origins ->
  List.length origins = S (count_char ","%char CORS_ORIGIN)
  /\ Forall (fun origin => count_char ","%char origin = 0) origins.
Proof.
  unfold cors_origin_option. destruct (String.eqb CORS_ORIGIN "*"); [discriminate |].
  intros H. injection H as <-. apply split_pieces.
Qed.

Lemma cors_origin_pieces_witness :
  List.length ["https://a.example"; ""; "https://b.example"]
  = S (count_char ","%char "https://a.example,,https://b.example")
  /\ Forall (fun origin => count_char ","%char origin = 0)
            ["https://a.example"; ""; "https://b.example"].
Proof.
  apply (cors_origin_pieces "https://a.example,,https://b.example"). reflexivity.
Defined.

(** ** Further properties of the assembler *)

Lemma context_infos_loaded (ctx : resource) (infos : list string) :
  context_infos ctx infos ->
  Array_map "contextArr" (fun c => get c Name.info) (load_contextArr ctx)
  = Normal (map VStr infos).
Proof.
  intros [entries infos' Hentries | |]; try reflexivity.
  simpl. apply mapM_get_strings, Hentries.
Qed.

Lemma guardrail_directive_loaded (guard : resource) (g : string) :
  guardrail_directive guard g -> load_guardrailPrompt guard = VStr g.
Proof.
  intros [gfile g' Hg | gfile Hg | |]; try reflexivity.
  - apply load_guardrailPrompt_string, Hg.
  - apply load_guardrailPrompt_falsy, Hg.
Qed.

Lemma nonempty_append (a b : string) : nonempty a = true -> nonempty (a ++ b) = true.
Proof.
  destruct a; [discriminate | reflexivity].
Qed.

Lemma ToBoolean_string (s : string) : ToBoolean (VStr s) = nonempty s.
Proof. reflexivity. Qed.

Lemma join_element_truthy (v : value) :
  ToBoolean v = true -> join_element v = ToString v.
Proof.
  unfold join_element. destruct v; simpl; try discriminate; reflexivity.
Qed.

Lemma filter_truthy_cons (v : value) (l : list value) :
  ToBoolean v = true -> filter ToBoolean (v :: l) = v :: filter ToBoolean l.
Proof.
  intros H. cbn [filter]. rewrite H. reflexivity.
Qed.

Lemma Array_join_cons_strings (sep : string) (v : value) (s : string) (texts : list string) :
  join_element v = Normal s ->
  Array_join sep (v :: map VStr texts) = Normal (String.concat sep (s :: texts)).
Proof.
  intros H. unfold Array_join. cbn [mapM]. rewrite H. cbn [bind].
  rewrite mapM_join_strings. reflexivity.
Qed.

Lemma entry_reads_text (c : value) (i : string) :
  entry_reads c i ->
  exists v, get c Name.info = Normal v /\ join_element v = Normal i.
Proof.
  intros [c' i' H | c' v H Hn].
  - exists (VStr i'). split; [exact H | reflexivity].
  - exists v. split; [exact H |]. unfold join_element. rewrite Hn. reflexivity.
Qed.

(** X3. The prompt is not escaped. A prompt that spells out a context
    block, the separator and a question gives, with no context file, the
    very composite input that this context and this question give. *)
Theorem prompt_can_forge_context
        (ctx guard : resource) (infos : list string) (p : string) :
  context_infos ctx infos ->
  nonempty (String.concat LF infos) = true ->
  nonempty p = true ->
  fullPrompt Unreadable guard (VStr (String.concat LF infos ++ separator ++ p))
  = fullPrompt ctx guard (VStr p).
Proof.
  intros Hctx Hc Hp. unfold fullPrompt.
  rewrite (context_infos_loaded ctx infos Hctx). cbn [load_contextArr load Array_map mapM bind].
  rewrite Array_join_strings. cbn [bind]. change (Array_join LF []) with (Normal (A := string) "").
  cbn [bind filter]. rewrite !ToBoolean_string, Hc, Hp, (nonempty_append _ _ Hc).
  change (nonempty "") with false. cbv iota.
  set (gp := load_guardrailPrompt guard).
  destruct (ToBoolean gp); [| reflexivity].
  unfold Array_join. cbn [mapM]. destruct (join_element gp); reflexivity.
Qed.

Lemma prompt_can_forge_context_witness :
  fullPrompt Unreadable (Parsed (VObj [("prompt", VStr "G")]))
             (VStr (String.concat LF ["A"; "B"] ++ separator ++ "P"))
  = fullPrompt (Parsed (VArr [VObj [("info", VStr "A")]; VObj [("info", VStr "B")]]))
               (Parsed (VObj [("prompt", VStr "G")])) (VStr "P").
Proof.
  apply (prompt_can_forge_context
           (Parsed (VArr [VObj [("info", VStr "A")]; VObj [("info", VStr "B")]]))
           (Parsed (VObj [("prompt", VStr "G")])) ["A"; "B"] "P").
  - apply infos_parsed. repeat constructor.
  - reflexivity.
  - reflexivity.
Defined.

(** X4. A guardrail [prompt] that is truthy but not a string, such as a
    number, [true] or an array, is kept as the first member and rendered by
    [ToString]. It is kept even when it renders as the empty string, as an
    empty array does, and the composite input then starts with the
    separator. *)
Theorem truthy_guardrail_is_rendered
        (ctx : resource) (infos : list string) (gfile v : value) (s p : string) :
  context_infos ctx infos ->
  get gfile Name.prompt = Normal v ->
  ToBoolean v = true ->
  ToString v = Normal s ->
  fullPrompt ctx (Parsed gfile) (VStr p)
  = Normal (String.concat separator (s :: filter nonempty [String.concat LF infos; p])).
Proof.
  intros Hctx Hg Hv Hs. unfold fullPrompt.
  rewrite (context_infos_loaded ctx infos Hctx). cbn [bind].
  rewrite Array_join_strings. cbn [bind].
  assert (Hgp : load_guardrailPrompt (Parsed gfile) = v).
  { unfold load_guardrailPrompt. cbn [load bind]. rewrite Hg. cbn [bind].
    unfold or_else. rewrite Hv. reflexivity. }
  rewrite Hgp.
  change [v; VStr (String.concat LF infos); VStr p]
    with (v :: map VStr [String.concat LF infos; p]).
  rewrite (filter_truthy_cons v _ Hv), filter_ToBoolean_strings.
  apply Array_join_cons_strings. rewrite (join_element_truthy v Hv). exact Hs.
Qed.

Lemma truthy_guardrail_is_rendered_witness :
  fullPrompt (Parsed (VArr [VObj [("info", VStr "A")]]))
             (Parsed (VObj [("prompt", VArr [])])) (VStr "P")
  = Normal ("" ++ LF ++ "---" ++ LF ++ "A" ++ LF ++ "---" ++ LF ++ "P").
Proof.
  apply (truthy_guardrail_is_rendered
           (Parsed (VArr [VObj [("info", VStr "A")]])) ["A"]
           (VObj [("prompt", VArr [])]) (VArr []) "" "P").
  - apply infos_parsed. repeat constructor.
  - reflexivity.
  - reflexivity.
  - reflexivity.
Defined.

(** X5. A context entry without [info], or whose [info] is [null], counts
    as an empty text: it still takes its place in the newline join of the
    context block, so the block of two or more entries is never empty. *)
Theorem entry_without_info_is_empty_line
        (entries : list value) (infos : list string) (guard : resource) (g p : string) :
  Forall2 entry_reads entries infos ->
  guardrail_directive guard g ->
  fullPrompt (Parsed (VArr entries)) guard (VStr p)
  = Normal (String.concat separator (filter nonempty [g; String.concat LF infos; p])).
Proof.
  intros Hentries Hguard. unfold fullPrompt.
  rewrite (guardrail_directive_loaded guard g Hguard).
  cbn [load_contextArr load Array_map].
  destruct (map_then_join (fun c => get c Name.info) LF entry_reads entries infos
              entry_reads_text Hentries) as (vs & Hm & Hj).
  rewrite Hm. cbn [bind]. rewrite Hj. cbn [bind].
  change [VStr g; VStr (String.concat LF infos); VStr p]
    with (map VStr [g; String.concat LF infos; p]).
  rewrite filter_ToBoolean_strings. apply Array_join_strings.
Qed.

Lemma entry_without_info_is_empty_line_witness :
  fullPrompt
    (Parsed (VArr [VObj [("note", VStr "n")]; VObj [("info", VNull)]; VObj [("info", VStr "B")]]))
    Unparsable (VStr "P")
  = Normal ("" ++ LF ++ "" ++ LF ++ "B" ++ LF ++ "---" ++ LF ++ "P").
Proof.
  apply (entry_without_info_is_empty_line
           [VObj [("note", VStr "n")]; VObj [("info", VNull)]; VObj [("info", VStr "B")]]
           [""; ""; "B"] Unparsable "" "P").
  - constructor; [apply info_absent with (v := VUndef); reflexivity |].
    constructor; [apply info_absent with (v := VNull); reflexivity |].
    constructor; [apply info_present; reflexivity | constructor].
  - apply directive_unparsable.
Defined.

(** ** Further properties of the invoker *)

Lemma placeholder_completes (e : value) :
  completes (placeholder e) = negb (nullish e) && completes (ToString (truthy_message e)).
Proof.
  destruct (nullish e) eqn:He.
  - destruct e; try discriminate; reflexivity.
  - unfold placeholder, append_value. rewrite (error_message_truthy e He). cbn [bind negb andb].
    destruct (ToString (truthy_message e)); reflexivity.
Qed.

Lemma placeholder_shape (e out : value) :
  placeholder e = Normal out ->
  exists s, ToString (truthy_message e) = Normal s
            /\ out = VStr ("[OpenAI error: " ++ s ++ "]").
Proof.
  intros H. destruct (nullish e) eqn:He.
  - destruct e; try discriminate He; discriminate H.
  - unfold placeholder, append_value in H. rewrite (error_message_truthy e He) in H.
    cbn [bind] in H. destruct (ToString (truthy_message e)) as [s | e']; [| discriminate].
    cbn [bind] in H. injection H as <-. exists s. split; reflexivity.
Qed.

(** X6. The [catch] block of [getChatResponse] returns exactly when the
    value caught is neither [null] nor [undefined] and its message
    converts to a string, and what it returns is then the prefix, that
    message and a closing bracket; for [null] or [undefined] the block
    itself throws. *)
Theorem placeholder_returns_iff (e : value) :
  completes (placeholder e) = negb (nullish e) && completes (ToString (truthy_message e))
  /\ (forall out,
        placeholder e = Normal out ->
        exists s, ToString (truthy_message e) = Normal s
                  /\ out = VStr ("[OpenAI error: " ++ s ++ "]"))
  /\ (nullish e = true -> exists thrown, placeholder e = Throw thrown /\ is_TypeError thrown).
Proof.
  split; [apply placeholder_completes |].
  split; [apply placeholder_shape |].
  intros He. destruct e; try discriminate He; eexists; (split; [reflexivity |]);
    eexists; reflexivity.
Qed.

Lemma placeholder_returns_iff_witness :
  exists thrown, placeholder VUndef = Throw thrown /\ is_TypeError thrown.
Proof.
  apply (proj2 (proj2 (placeholder_returns_iff VUndef))). reflexivity.
Defined.

(** X7. Once the composite input is assembled, a call that the service
    resolves never makes [getChatResponse] throw, whatever the response
    holds: the text extracted is returned, and a response from which the
    extraction throws, such as one whose [output] is not an array, comes
    back as an error placeholder. *)
Theorem resolved_call_never_throws
        (w : World) (role prompt : value) (full : string) (r : value) :
  fullPrompt w.(context_json) w.(guardrail_json) prompt = Normal full ->
  w.(responses_create) (gpt5_request role full) = Resolved r ->
  (forall v, extract_text r = Normal v ->
             result (getChatResponse w role prompt) = Normal v)
  /\ (forall e, extract_text r = Throw e ->
                exists s, result (getChatResponse w role prompt)
                          = Normal (VStr ("[OpenAI error: " ++ s ++ "]")))
  /\ (forall direct out,
        get r Name.output_text = Normal direct -> nullish direct = true ->
        get r Name.output = Normal out -> nullish out = false -> is_array out = false ->
        exists s, result (getChatResponse w role prompt)
                  = Normal (VStr ("[OpenAI error: " ++ s ++ "]"))).
Proof.
  intros Hfull Hres. rewrite (getChatResponse_assembled _ _ _ _ Hfull). cbn [result].
  rewrite Hres. cbn [await bind].
  assert (Hthrow : forall e, extract_text r = Throw e ->
            exists s, try_catch (extract_text r) placeholder
                      = Normal (VStr ("[OpenAI error: " ++ s ++ "]"))).
  { intros e He. pose proof (extract_text_cases r) as Hcases. rewrite He in *.
    cbn [try_catch]. destruct Hcases as [msg ->].
    destruct (String.eqb msg "") eqn:E.
    - exists "Unknown error". apply placeholder_of_message; [reflexivity |].
      unfold truthy_message. simpl. rewrite E. reflexivity.
    - exists msg. apply placeholder_of_message; [reflexivity |].
      unfold truthy_message. simpl. rewrite E. reflexivity. }
  split; [intros v Hv; rewrite Hv; reflexivity |].
  split; [exact Hthrow |].
  intros direct out Hd Hn Ho Hno Harr.
  assert (exists e, extract_text r = Throw e) as [e He].
  { unfold extract_text. rewrite Hd. cbn [bind]. unfold coalesce. rewrite Hn, Ho.
    cbn [bind]. rewrite Hno.
    destruct out; try discriminate; cbn [Array_map bind]; eexists; reflexivity. }
  apply (Hthrow e He).
Qed.

Lemma resolved_call_never_throws_witness :
  exists s,
    result (getChatResponse
              {| context_json := Unreadable; guardrail_json := Unreadable;
                 responses_create := fun _ => Resolved malformed |}
              (VStr "user") (VStr "P"))
    = Normal (VStr ("[OpenAI error: " ++ s ++ "]")).
Proof.
  refine (proj2 (proj2 (resolved_call_never_throws
            {| context_json := Unreadable; guardrail_json := Unreadable;
               responses_create := fun _ => Resolved malformed |}
            (VStr "user") (VStr "P") "P" malformed eq_refl eq_refl))
          VUndef (VObj [("text", VStr "Hi")]) eq_refl eq_refl eq_refl eq_refl eq_refl).
Defined.

(** ** Further properties of the handler *)

Lemma try_extract_completes (r : value) :
  completes (try_catch (extract_text r) placeholder) = true.
Proof.
  pose proof (extract_text_cases r) as Hcases.
  destruct (extract_text r) as [v | e]; cbn [try_catch]; [reflexivity |].
  destruct (placeholder_of_TypeError e Hcases) as [s ->]. reflexivity.
Qed.

(** X8. A request that passed validation gets a reply exactly when the
    call settles in a way [getChatResponse] handles: it gets one for every
    response, and for every rejection with a value that is neither [null]
    nor [undefined] and whose message converts to a string. When the
    assembly throws, the handler throws the same value, sends no reply and
    makes no upstream call. *)
Theorem valid_request_replies_iff
        (w : World) (req : list (string * value)) (r p : string) :
  valid_body req = true ->
  lookup "role" req = Some (VStr r) ->
  lookup "prompt" req = Some (VStr p) ->
  (forall full,
      fullPrompt w.(context_json) w.(guardrail_json) (VStr p) = Normal full ->
      completes (response (post_v1_chat w req))
      = settled_handled (w.(responses_create) (gpt5_request (VStr r) full)))
  /\ (forall e,
      fullPrompt w.(context_json) w.(guardrail_json) (VStr p) = Throw e ->
      post_v1_chat w req = {| upstream := []; response := Throw e |}).
Proof.
  intros Hvalid Hr Hp.
  destruct (valid_body_accepted req Hvalid) as (r' & p' & Hr' & Hp' & _ & _ & Hv).
  rewrite Hr in Hr'. rewrite Hp in Hp'. injection Hr' as <-. injection Hp' as <-.
  rewrite (post_v1_chat_accepted w req r p Hv). split.
  - intros full Hfull. cbn [response].
    rewrite (getChatResponse_assembled _ _ _ _ Hfull). cbn [result].
    destruct (w.(responses_create) (gpt5_request (VStr r) full)) as [resp | e];
      cbn [await bind settled_handled].
    + pose proof (try_extract_completes resp) as H.
      destruct (try_catch (extract_text resp) placeholder); [reflexivity | discriminate].
    + cbn [try_catch]. rewrite <- placeholder_completes.
      destruct (placeholder e); reflexivity.
  - intros e He. rewrite (getChatResponse_not_assembled _ _ _ _ He). reflexivity.
Qed.

Lemma valid_request_replies_iff_witness :
  completes (response (post_v1_chat
                         {| context_json := Unreadable; guardrail_json := Unreadable;
                            responses_create := fun _ => Rejected VUndef |}
                         [("role", VStr "user"); ("prompt", VStr "P")]))
  = false.
Proof.
  apply (proj1 (valid_request_replies_iff
                  {| context_json := Unreadable; guardrail_json := Unreadable;
                     responses_create := fun _ => Rejected VUndef |}
                  [("role", VStr "user"); ("prompt", VStr "P")] "user" "P"
                  eq_refl eq_refl eq_refl) "P").
  reflexivity.
Defined.

(** X9. The handler reads its body through [role] and [prompt] only: two
    bodies that agree on these two fields, whatever else they hold and in
    whatever order, get the same reply and cause the same upstream calls. *)
Theorem handler_ignores_other_fields (w : World) (req1 req2 : list (string * value)) :
  lookup "role" req1 = lookup "role" req2 ->
  lookup "prompt" req1 = lookup "prompt" req2 ->
  post_v1_chat w req1 = post_v1_chat w req2.
Proof.
  intros Hr Hp. unfold post_v1_chat, bodySchema_validate, keep. rewrite Hr, Hp. reflexivity.
Qed.

Lemma handler_ignores_other_fields_witness :
  post_v1_chat online
    [("model", VStr "gpt-5-mini"); ("prompt", VStr "P"); ("role", VStr "user");
     ("temperature", VNum "2")]
  = post_v1_chat online [("role", VStr "user"); ("prompt", VStr "P")].
Proof.
  apply handler_ignores_other_fields; reflexivity.
Defined.

(** ** The preset table *)


